(** * Microgrid VPS prototype: cloud API and edge synchronisation agent

    A shallow embedding of [cloud/app.py] (the in-memory cloud API) and of
    [microgrid-vps-prototype-v4/edge/app.py] (the [EdgeState] agent), with
    the properties of the enrollment-token life cycle, the edge registry
    and the edge's registration / refresh methods. *)

From Stdlib Require Import Ascii.
From stdpp Require Import gmap strings list fin_maps.

Set Warnings "-register-all".

(** ** JSON values

    What [resp.json()] yields and what pydantic hands to a handler: Python's
    [None], [bool], [int], [float], [str], [list] and [dict] with string
    keys.  A float is kept as its IEEE-754 binary64 bit pattern. *)

Inductive json : Type :=
| JNull
| JBool (b : bool)
| JInt (z : Z)
| JFloat (bits : Z)
| JStr (s : string)
| JArr (l : list json)
| JObj (d : gmap string json).

(** Python truthiness, as [not x] tests it. *)
Definition truthy (v : json) : bool :=
  match v with
  | JNull => false
  | JBool b => b
  | JInt z => negb (z =? 0)%Z
  | JFloat bits => negb (Z.land bits (2 ^ 63 - 1) =? 0)%Z
  | JStr s => negb (String.eqb s EmptyString)
  | JArr l => match l with [] => false | _ => true end
  | JObj d => negb (bool_decide (d = ∅))
  end.

(** [dict.get(key)]: the value, or [None] when the key is absent. *)
Definition dict_get (d : gmap string json) (key : string) : json :=
  default JNull (d !! key).

(** ** The cloud API ([cloud/app.py]) *)

Module Cloud.

(** [HTTPException(status_code=..., detail=...)] *)
Record HTTPException : Type := mkHTTPException {
  status_code : Z;
  detail : string
}.

(** A handler either returns its body or raises an [HTTPException]. *)
Inductive result (A : Type) : Type :=
| Return (a : A)
| Raise (e : HTTPException).
Arguments Return {A} a.
Arguments Raise {A} e.

(** The value of [edges[edge_id]]: the dict
    [{"site_id": site_id, "edge_id": edge_id}]. *)
Record EdgeRecord : Type := mkEdgeRecord {
  site_id : string;
  edge_id : string
}.

(** The three module-level stores. *)
Record State : Type := mkState {
  sites : gmap string (gmap string json);
  enrollment_tokens : gmap string string;
  edges : gmap string EdgeRecord
}.

Definition init : State :=
  {| sites := ∅; enrollment_tokens := ∅; edges := ∅ |}.

(** [class RegisterRequest(BaseModel)] *)
Record RegisterRequest : Type := mkRegisterRequest {
  req_edge_id : string;
  req_token : string
}.

Definition site_not_found : HTTPException :=
  {| status_code := 404; detail := "site not found" |}.
Definition invalid_token : HTTPException :=
  {| status_code := 400; detail := "invalid or expired token" |}.
Definition edge_not_registered : HTTPException :=
  {| status_code := 404; detail := "edge not registered" |}.

(** [GET /health] *)
Definition health : gmap string string := {[ "status" := "ok" ]}.

(** [POST /api/sites/{site_id}/desired-config] *)
Definition set_desired_config (site : string) (config : gmap string json)
    (st : State) : State * result (gmap string string) :=
  ({| sites := <[site := config]> (sites st);
      enrollment_tokens := enrollment_tokens st;
      edges := edges st |},
   Return {[ "status" := "saved" ]}).

(** [GET /api/sites/{site_id}/desired-config] *)
Definition get_desired_config (site : string) (st : State)
    : result (gmap string json) :=
  match sites st !! site with
  | None => Raise site_not_found
  | Some config => Return config
  end.

(** [POST /api/sites/{site_id}/enrollment-token].  [uuid4_hex] is the value
    that [uuid.uuid4().hex] draws during this call. *)
Definition generate_token (site : string) (uuid4_hex : string) (st : State)
    : State * result (gmap string string) :=
  match sites st !! site with
  | None => (st, Raise site_not_found)
  | Some _ =>
      let token := uuid4_hex in
      ({| sites := sites st;
          enrollment_tokens := <[token := site]> (enrollment_tokens st);
          edges := edges st |},
       Return {[ "token" := token ]})
  end.

(** [POST /api/edge/register] *)
Definition register_edge (req : RegisterRequest) (st : State)
    : State * result (gmap string string) :=
  let token := req_token req in
  let edge := req_edge_id req in
  match enrollment_tokens st !! token with
  | None => (st, Raise invalid_token)
  | Some site =>
      ({| sites := sites st;
          enrollment_tokens := delete token (enrollment_tokens st);
          edges := <[edge := {| site_id := site; edge_id := edge |}]> (edges st) |},
       Return {[ "site_id" := site ]})
  end.

(** [GET /api/edges/{edge_id}/desired-config] *)
Definition get_edge_config (edge : string) (st : State)
    : result (gmap string json) :=
  match edges st !! edge with
  | None => Raise edge_not_registered
  | Some rec =>
      let site := site_id rec in
      match sites st !! site with
      | None => Raise site_not_found
      | Some config => Return config
      end
  end.

(** [GET /api/edges]: the stored records (listed here in the order of the
    map, where Python lists them in insertion order). *)
Definition list_edges (st : State) : list EdgeRecord :=
  (map_to_list (edges st)).*2.

(** *** Sequences of API calls

    The handlers are the only code that touches the three stores, so a
    history of the cloud is a list of calls, each run to completion. *)

Inductive Call : Type :=
| SetDesiredConfig (site : string) (config : gmap string json)
| GetDesiredConfig (site : string)
| GenerateToken (site : string) (uuid4_hex : string)
| RegisterEdge (req : RegisterRequest)
| GetEdgeConfig (edge : string)
| ListEdges
| Health.

Inductive Reply : Type :=
| Status (r : result (gmap string string))
| Config (r : result (gmap string json))
| EdgeList (l : list EdgeRecord).

Definition handle (c : Call) (st : State) : State * Reply :=
  match c with
  | SetDesiredConfig site config =>
      let '(st', r) := set_desired_config site config st in (st', Status r)
  | GetDesiredConfig site => (st, Config (get_desired_config site st))
  | GenerateToken site u =>
      let '(st', r) := generate_token site u st in (st', Status r)
  | RegisterEdge req =>
      let '(st', r) := register_edge req st in (st', Status r)
  | GetEdgeConfig edge => (st, Config (get_edge_config edge st))
  | ListEdges => (st, EdgeList (list_edges st))
  | Health => (st, Status (Return health))
  end.

(** The state after a sequence of calls. *)
Fixpoint exec (cs : list Call) (st : State) : State :=
  match cs with
  | [] => st
  | c :: cs' => exec cs' (handle c st).1
  end.

(** The replies of a sequence of calls, in order. *)
Fixpoint replies (cs : list Call) (st : State) : list Reply :=
  match cs with
  | [] => []
  | c :: cs' => (handle c st).2 :: replies cs' (handle c st).1
  end.

Definition reachable (st : State) : Prop := ∃ cs, exec cs init = st.

Definition succeeded {A} (r : result A) : bool :=
  match r with Return _ => true | Raise _ => false end.

(** Is [c], made in state [st], a successful [generate_token] that hands
    out token [t]? *)
Definition issues (t : string) (c : Call) (st : State) : bool :=
  match c with
  | GenerateToken site u =>
      bool_decide (u = t) && succeeded (generate_token site u st).2
  | _ => false
  end.

(** Is [c], made in state [st], a successful [register_edge] carrying
    token [t]? *)
Definition redeems (t : string) (c : Call) (st : State) : bool :=
  match c with
  | RegisterEdge req =>
      bool_decide (req_token req = t) && succeeded (register_edge req st).2
  | _ => false
  end.

(** Is [c], made in state [st], a successful [register_edge] for edge
    [e]? *)
Definition binds (e : string) (c : Call) (st : State) : bool :=
  match c with
  | RegisterEdge req =>
      bool_decide (req_edge_id req = e) && succeeded (register_edge req st).2
  | _ => false
  end.

(** How often a predicate on (call, state before it) holds along a run. *)
Fixpoint count (p : Call → State → bool) (cs : list Call) (st : State)
    : nat :=
  match cs with
  | [] => 0
  | c :: cs' => (if p c st then 1 else 0) + count p cs' (handle c st).1
  end.

(** What a token or a binding names is a site with a configuration. *)
Definition sites_closed (st : State) : Prop :=
  (∀ e r, edges st !! e = Some r → is_Some (sites st !! site_id r))
  ∧ (∀ t s, enrollment_tokens st !! t = Some s → is_Some (sites st !! s)).

(** The site an edge is bound to, if any. *)
Definition binding (e : string) (st : State) : option string :=
  site_id <$> edges st !! e.

(** Binding stability in the spec's words: once [register_edge] has
    succeeded with site [S], after any further calls the edge is still
    bound to [S] and its configuration is the one stored for [S]. *)
Definition binding_stability_as_stated : Prop :=
  ∀ st req st1 S,
    register_edge req st = (st1, Return {[ "site_id" := S ]}) →
    ∀ cs,
      binding (req_edge_id req) (exec cs st1) = Some S
      ∧ get_edge_config (req_edge_id req) (exec cs st1)
        = get_desired_config S (exec cs st1).

(** The scenario of the spec: two sites, a token for each. *)
Definition config_v1 : gmap string json := {[ "v" := JInt 1 ]}.
Definition config_v2 : gmap string json := {[ "v" := JInt 2 ]}.
Definition two_sites : State :=
  exec [SetDesiredConfig "site-A" config_v1;
        SetDesiredConfig "site-B" config_v2;
        GenerateToken "site-A" "t1";
        GenerateToken "site-B" "t2"] init.
Definition edge9_t1 : RegisterRequest :=
  {| req_edge_id := "edge-9"; req_token := "t1" |}.
Definition edge9_t2 : RegisterRequest :=
  {| req_edge_id := "edge-9"; req_token := "t2" |}.

(** The configuration written by the last [SetDesiredConfig] for [site] in
    a sequence of calls, if there is one. *)
Fixpoint last_write (site : string) (cs : list Call)
    : option (gmap string json) :=
  match cs with
  | [] => None
  | c :: cs' =>
      match last_write site cs' with
      | Some C => Some C
      | None =>
          match c with
          | SetDesiredConfig s C => if decide (s = site) then Some C else None
          | _ => None
          end
      end
  end.

(** Where the contents of the token store and of the registry come from,
    relative to the calls [cs] made so far: a token was handed out by a
    [generate_token] for its site, and a binding was made by a
    [register_edge] of that edge with a token handed out for the bound
    site; the record of an edge carries the id it is stored under. *)
Definition provenance (cs : list Call) (st : State) : Prop :=
  (∀ t s, enrollment_tokens st !! t = Some s → GenerateToken s t ∈ cs)
  ∧ (∀ e r, edges st !! e = Some r →
       edge_id r = e
       ∧ ∃ t, RegisterEdge {| req_edge_id := e; req_token := t |} ∈ cs
              ∧ GenerateToken (site_id r) t ∈ cs).

End Cloud.

(** ** The edge agent ([edge/app.py]) *)

Module Edge.

(** [str.rstrip("/")] *)
Fixpoint rstrip_slash (s : string) : string :=
  match s with
  | EmptyString => EmptyString
  | String c s' =>
      match rstrip_slash s' with
      | EmptyString => if Ascii.eqb c "/"%char then EmptyString else String c EmptyString
      | r => String c r
      end
  end.

(** [class EdgeState].  [site_id] and [config] hold whatever the cloud's
    JSON carried; Python's [None] is [JNull]. *)
Record EdgeState : Type := mkEdgeState {
  edge_id : string;
  cloud_url : string;
  token : option string;
  site_id : json;
  registered : bool;
  config : json
}.

(** [EdgeState.__init__] *)
Definition init (edge_id cloud_url : string) (token : option string)
    : EdgeState :=
  {| edge_id := edge_id;
     cloud_url := rstrip_slash cloud_url;
     token := token;
     site_id := JNull;
     registered := false;
     config := JNull |}.

(** Truthiness of an [Optional[str]], as in [if not self.token]. *)
Definition str_truthy (t : option string) : bool :=
  match t with
  | None => false
  | Some s => negb (String.eqb s EmptyString)
  end.

(** An [httpx.Response], as far as the agent looks at it: its status and
    what [resp.json()] gives ([None] when the body does not decode, in
    which case [resp.json()] raises). *)
Record Response : Type := mkResponse {
  status_code : Z;
  json_body : option json
}.

(** What awaiting [client.post] / [client.get] does: it returns a response,
    or raises a transport-level [httpx.HTTPError] (connection refused,
    timeout, ...). *)
Inductive HttpResult : Type :=
| Responded (resp : Response)
| TransportError.

(** [resp.raise_for_status()] raises [httpx.HTTPStatusError] unless the
    status is 2xx. *)
Definition raise_for_status (resp : Response) : bool :=
  negb ((200 <=? status_code resp)%Z && (status_code resp <? 300)%Z).

(** Does the [try] block end in [except httpx.HTTPError]? *)
Definition http_error (r : HttpResult) : bool :=
  match r with
  | TransportError => true
  | Responded resp => raise_for_status resp
  end.

(** The agent's suspension points. *)
Inductive NetE : Type → Type :=
| HttpPost (url : string) (body : json) (timeout : Z) : NetE HttpResult
| HttpGet (url : string) (timeout : Z) : NetE HttpResult
| Sleep (seconds : Z) : NetE unit.

(** A coroutine: it returns, or awaits an event and goes on with the
    answer. *)
Inductive Prog (A : Type) : Type :=
| Ret (a : A)
| Vis {X : Type} (e : NetE X) (k : X → Prog A).
Arguments Ret {A} a.
Arguments Vis {A X} e k.

(** Exceptions that are not [httpx.HTTPError] and so leave the method. *)
Inductive Exn : Type :=
| JSONDecodeError
| AttributeError.

Inductive Completion : Type :=
| Normal
| Escaped (e : Exn).

(** A method of the agent: the object after the call and how the call
    ended. *)
Definition Method : Type := EdgeState → Prog (EdgeState * Completion).

Fixpoint bind {A B} (p : Prog A) (f : A → Prog B) : Prog B :=
  match p with
  | Ret a => f a
  | Vis e k => Vis e (λ x, bind (k x) f)
  end.

(** Statement sequencing: an escaped exception skips what follows. *)
Definition andthen (p : Prog (EdgeState * Completion)) (m : Method)
    : Prog (EdgeState * Completion) :=
  bind p (λ '(s, c), match c with Normal => m s | Escaped _ => Ret (s, c) end).

Notation "p ;;; m" := (andthen p m) (at level 61, left associativity).

Definition register_url (s : EdgeState) : string :=
  cloud_url s +:+ "/api/edge/register".

Definition register_payload (s : EdgeState) (tok : string) : json :=
  JObj {[ "edge_id" := JStr (edge_id s); "token" := JStr tok ]}.

Definition config_url (s : EdgeState) : string :=
  cloud_url s +:+ "/api/edges/" +:+ edge_id s +:+ "/desired-config".

(** [EdgeState.register_with_cloud] *)
Definition register_with_cloud : Method := λ s,
  if negb (str_truthy (token s)) then Ret (s, Normal)
  else
    let url := register_url s in
    let payload := register_payload s (default EmptyString (token s)) in
    Vis (HttpPost url payload 10) (λ r,
      match r with
      | TransportError => Ret (s, Normal)
      | Responded resp =>
          if raise_for_status resp then Ret (s, Normal)
          else
            match json_body resp with
            | None => Ret (s, Escaped JSONDecodeError)
            | Some (JObj data) =>
                Ret ({| edge_id := edge_id s;
                        cloud_url := cloud_url s;
                        token := None;
                        site_id := dict_get data "site_id";
                        registered := true;
                        config := config s |}, Normal)
            | Some _ => Ret (s, Escaped AttributeError)
            end
      end).

(** [EdgeState.refresh_config] *)
Definition refresh_config : Method := λ s,
  if negb (registered s) || negb (truthy (site_id s)) then Ret (s, Normal)
  else
    let url := config_url s in
    Vis (HttpGet url 10) (λ r,
      match r with
      | TransportError => Ret (s, Normal)
      | Responded resp =>
          if raise_for_status resp then Ret (s, Normal)
          else
            match json_body resp with
            | None => Ret (s, Escaped JSONDecodeError)
            | Some body =>
                Ret ({| edge_id := edge_id s;
                        cloud_url := cloud_url s;
                        token := token s;
                        site_id := site_id s;
                        registered := registered s;
                        config := body |}, Normal)
            end
      end).

(** [asyncio.sleep(seconds)] *)
Definition sleep (seconds : Z) : Method := λ s,
  Vis (Sleep seconds) (λ _, Ret (s, Normal)).

(** The body of the [while True] loop of [run_background_tasks]. *)
Definition tick : Method := λ s,
  (if negb (registered s) && str_truthy (token s)
   then register_with_cloud s else Ret (s, Normal))
  ;;; refresh_config
  ;;; sleep 15.

(** [n] iterations of the loop. *)
Fixpoint ticks (n : nat) : Method := λ s,
  match n with
  | O => Ret (s, Normal)
  | S n' => tick s ;;; ticks n'
  end.

(** [EdgeState.run_background_tasks], up to the end of the [n]-th
    iteration of its loop (the loop itself never ends). *)
Definition run_background_tasks (n : nat) : Method := λ s,
  (if str_truthy (token s) then register_with_cloud s else Ret (s, Normal))
  ;;; ticks n.

(** [GET /status] *)
Definition status (s : EdgeState) : gmap string json :=
  {[ "edge_id" := JStr (edge_id s);
     "registered" := JBool (registered s);
     "site_id" := site_id s;
     "config" := config s ]}.

(** *** Running a coroutine against a network

    The network is a script: the outcome of the first request, of the
    second, and so on; once the script is used up every request fails at
    the transport level.  The run records what the agent did. *)

Inductive Action : Type :=
| Posted (url : string) (body : json) (timeout : Z)
| Fetched (url : string) (timeout : Z)
| Slept (seconds : Z).

Definition next (script : list HttpResult) : HttpResult * list HttpResult :=
  match script with
  | [] => (TransportError, [])
  | r :: rest => (r, rest)
  end.

Fixpoint run {A} (p : Prog A) (script : list HttpResult)
    : A * list Action * list HttpResult :=
  match p with
  | Ret a => (a, [], script)
  | Vis e k =>
      match e in NetE X return (X → Prog A) → A * list Action * list HttpResult with
      | HttpPost url body t => λ k,
          let '(r, rest) := next script in
          let '(a, acts, rest') := run (k r) rest in
          (a, Posted url body t :: acts, rest')
      | HttpGet url t => λ k,
          let '(r, rest) := next script in
          let '(a, acts, rest') := run (k r) rest in
          (a, Fetched url t :: acts, rest')
      | Sleep secs => λ k,
          let '(a, acts, rest') := run (k ()) script in
          (a, Slept secs :: acts, rest')
      end k
  end.

(** The object, the completion and the actions of a run. *)
Definition state_after (p : Prog (EdgeState * Completion))
    (script : list HttpResult) : EdgeState := (run p script).1.1.1.
Definition completion_of (p : Prog (EdgeState * Completion))
    (script : list HttpResult) : Completion := (run p script).1.1.2.
Definition actions_of {A} (p : Prog A) (script : list HttpResult)
    : list Action := (run p script).1.2.

(** The states the agent's object can be in: as built by [__init__], or
    after one of the two methods that assign to it has run against some
    network. *)
Inductive agent_state : EdgeState → Prop :=
| agent_init e u t : agent_state (init e u t)
| agent_register s script :
    agent_state s → agent_state (state_after (register_with_cloud s) script)
| agent_refresh s script :
    agent_state s → agent_state (state_after (refresh_config s) script).

(** The token goes together with being unregistered. *)
Definition token_inv (s : EdgeState) : Prop :=
  is_Some (token s) → registered s = false ∧ site_id s = JNull.

(** The same object with another cached configuration. *)
Definition with_config (s : EdgeState) (body : json) : EdgeState :=
  {| edge_id := edge_id s;
     cloud_url := cloud_url s;
     token := token s;
     site_id := site_id s;
     registered := registered s;
     config := body |}.

(** Registered, without token and without site. *)
Definition stuck (s : EdgeState) : EdgeState :=
  {| edge_id := edge_id s;
     cloud_url := cloud_url s;
     token := None;
     site_id := JNull;
     registered := true;
     config := config s |}.

(** An agent as the module builds it, and some answers of a cloud. *)
Definition edge1 : EdgeState :=
  init "edge-1" "http://cloud-api:8080/" (Some "t1").
Definition bad_request : HttpResult :=
  Responded {| status_code := 400;
               json_body := Some (JObj {[ "detail" := JStr "invalid or expired token" ]}) |}.
Definition ok_site_A : HttpResult :=
  Responded {| status_code := 200;
               json_body := Some (JObj {[ "site_id" := JStr "site-A" ]}) |}.
Definition ok_no_site : HttpResult :=
  Responded {| status_code := 200;
               json_body := Some (JObj {[ "status" := JStr "ok" ]}) |}.
Definition ok_config : HttpResult :=
  Responded {| status_code := 200;
               json_body := Some (JObj {[ "v" := JInt 1 ]}) |}.

(** [k] slashes in a row. *)
Fixpoint slashes (k : nat) : string :=
  match k with
  | O => EmptyString
  | S k' => String "/"%char (slashes k')
  end.

(** Is the last character of [s] a slash? *)
Fixpoint ends_with_slash (s : string) : bool :=
  match s with
  | EmptyString => false
  | String c s' =>
      match s' with
      | EmptyString => Ascii.eqb c "/"%char
      | _ => ends_with_slash s'
      end
  end.

(** The module-level [state]: [os.getenv] with its defaults, over the
    process environment [env]. *)
Definition module_state (env : gmap string string) : EdgeState :=
  init (default "edge-1" (env !! "EDGE_ID"))
       (default "http://cloud-api:8080" (env !! "CLOUD_URL"))
       (env !! "EDGE_TOKEN").

Definition is_post (a : Action) : bool :=
  match a with Posted _ _ _ => true | _ => false end.
Definition is_fetch (a : Action) : bool :=
  match a with Fetched _ _ => true | _ => false end.
Definition is_sleep (a : Action) : bool :=
  match a with Slept _ => true | _ => false end.

(** The object after a successful registration whose answer carried
    [site] under "site_id". *)
Definition enrolled (s : EdgeState) (site : json) : EdgeState :=
  {| edge_id := edge_id s;
     cloud_url := cloud_url s;
     token := None;
     site_id := site;
     registered := true;
     config := config s |}.

(** How many of the actions satisfy [p]. *)
Definition how_many (p : Action → bool) (acts : list Action) : nat :=
  length (List.filter p acts).

(** Nothing is cached before the agent is registered with a site, and a
    token is only held by an agent that has neither site nor cache. *)
Definition cache_inv (s : EdgeState) : Prop :=
  (is_Some (token s) →
     registered s = false ∧ site_id s = JNull ∧ config s = JNull)
  ∧ (registered s && truthy (site_id s) = false → config s = JNull).

End Edge.

(** ** Properties of the cloud API *)

Module CloudSpec.
Import Cloud.

Lemma exec_app cs1 cs2 st : exec (cs1 ++ cs2) st = exec cs2 (exec cs1 st).
Proof. revert st. induction cs1 as [|c cs1 IH]; intros st; simpl; auto. Qed.

Lemma count_app p cs1 cs2 st :
  count p (cs1 ++ cs2) st = count p cs1 st + count p cs2 (exec cs1 st).
Proof.
  revert st. induction cs1 as [|c cs1 IH]; intros st; simpl; [done|].
  rewrite IH. lia.
Qed.

(** What a failed and a successful [register_edge] look like. *)
Lemma register_edge_None req st :
  enrollment_tokens st !! req_token req = None →
  register_edge req st = (st, Raise invalid_token).
Proof. intros H. unfold register_edge. by rewrite H. Qed.

Lemma register_edge_Some req st site :
  enrollment_tokens st !! req_token req = Some site →
  register_edge req st =
    ({| sites := sites st;
        enrollment_tokens := delete (req_token req) (enrollment_tokens st);
        edges := <[req_edge_id req :=
                   {| site_id := site; edge_id := req_edge_id req |}]> (edges st) |},
     Return {[ "site_id" := site ]}).
Proof. intros H. unfold register_edge. by rewrite H. Qed.

Lemma register_edge_Return req st st1 body :
  register_edge req st = (st1, Return body) →
  ∃ site, enrollment_tokens st !! req_token req = Some site
          ∧ body = {[ "site_id" := site ]}
          ∧ register_edge req st =
              ({| sites := sites st;
                  enrollment_tokens := delete (req_token req) (enrollment_tokens st);
                  edges := <[req_edge_id req :=
                     {| site_id := site; edge_id := req_edge_id req |}]> (edges st) |},
               Return {[ "site_id" := site ]}).
Proof.
  intros H. destruct (enrollment_tokens st !! req_token req) as [site|] eqn:E.
  - exists site. rewrite (register_edge_Some _ _ _ E) in H |- *.
    by inversion H.
  - rewrite (register_edge_None _ _ E) in H. inversion H.
Qed.

Lemma succeeded_register req st :
  succeeded (register_edge req st).2
  = bool_decide (is_Some (enrollment_tokens st !! req_token req)).
Proof.
  unfold register_edge.
  destruct (enrollment_tokens st !! req_token req) as [site|]; symmetry.
  - apply bool_decide_eq_true_2. eauto.
  - apply bool_decide_eq_false_2. by intros [? ?].
Qed.

Lemma site_id_body_inj (a b : string) :
  ({[ "site_id" := a ]} : gmap string string) = {[ "site_id" := b ]} → a = b.
Proof.
  intros H. apply (f_equal (λ m : gmap string string, m !! "site_id")) in H.
  rewrite !lookup_singleton_eq in H. by inversion H.
Qed.

(** *** How one call moves each store *)

(** Site keys are never deleted. *)
Lemma handle_sites_mono c st site :
  is_Some (sites st !! site) → is_Some (sites (handle c st).1 !! site).
Proof.
  intros H. destruct c as [s cfg|s|s u|req|e| |]; simpl; auto.
  - destruct (decide (s = site)) as [->|Hne].
    + rewrite lookup_insert_eq. eauto.
    + by rewrite lookup_insert_ne.
  - unfold generate_token. by destruct (sites st !! s).
  - unfold register_edge. by destruct (enrollment_tokens st !! req_token req).
Qed.

Lemma exec_sites_mono cs st site :
  is_Some (sites st !! site) → is_Some (sites (exec cs st) !! site).
Proof.
  revert st. induction cs as [|c cs IH]; intros st H; simpl; [done|].
  by apply IH, handle_sites_mono.
Qed.

(** A token absent before a call is absent after it, unless the call
    issues it. *)
Lemma handle_token_absent t c st :
  enrollment_tokens st !! t = None → issues t c st = false →
  enrollment_tokens (handle c st).1 !! t = None.
Proof.
  intros Hnone Hiss. destruct c as [s cfg|s|s u|req|e| |]; simpl in *; auto.
  - unfold generate_token in *. destruct (sites st !! s); simpl in *; [|done].
    rewrite andb_true_r in Hiss. apply bool_decide_eq_false in Hiss.
    by rewrite lookup_insert_ne.
  - unfold register_edge. destruct (enrollment_tokens st !! req_token req); simpl; [|done].
    destruct (decide (req_token req = t)) as [->|Hne].
    + by rewrite lookup_delete_eq.
    + by rewrite lookup_delete_ne.
Qed.

Lemma redeems_absent t c st :
  enrollment_tokens st !! t = None → redeems t c st = false.
Proof.
  intros Hnone. destruct c as [s cfg|s|s u|req|e| |]; simpl; auto.
  rewrite succeeded_register.
  destruct (bool_decide (req_token req = t)) eqn:E; [|done].
  apply bool_decide_eq_true in E. subst t. simpl.
  apply bool_decide_eq_false. rewrite Hnone. by intros [? ?].
Qed.

(** After a successful redemption of [t] the token is gone. *)
Lemma redeems_consumes t c st :
  redeems t c st = true → enrollment_tokens (handle c st).1 !! t = None.
Proof.
  destruct c as [s cfg|s|s u|req|e| |]; simpl; try done.
  intros [E1 E2]%andb_true_iff. apply bool_decide_eq_true in E1. subst t.
  unfold register_edge in *.
  destruct (enrollment_tokens st !! req_token req) eqn:E; simpl in *.
  - apply lookup_delete_eq.
  - done.
Qed.

(** The counting invariant behind single use: every successful redemption
    of [t] is paid for by the token being in the store at the start or by
    a later issuance of [t]. *)
Lemma redeemed_le_issued t cs st :
  count (redeems t) cs st
  ≤ match enrollment_tokens st !! t with Some _ => 1 | None => 0 end
    + count (issues t) cs st.
Proof.
  revert st. induction cs as [|c cs IH]; intros st; simpl; [lia|].
  specialize (IH (handle c st).1).
  destruct (redeems t c st) eqn:Hr.
  - rewrite (redeems_consumes _ _ _ Hr) in IH.
    destruct (enrollment_tokens st !! t) eqn:Ht.
    + lia.
    + by rewrite (redeems_absent _ _ _ Ht) in Hr.
  - destruct (issues t c st) eqn:Hi.
    + destruct (enrollment_tokens (handle c st).1 !! t);
        destruct (enrollment_tokens st !! t); lia.
    + destruct (enrollment_tokens st !! t) eqn:Ht.
      * destruct (enrollment_tokens (handle c st).1 !! t); lia.
      * rewrite (handle_token_absent _ _ _ Ht Hi) in IH. lia.
Qed.

Lemma exec_token_absent t cs st :
  enrollment_tokens st !! t = None → count (issues t) cs st = 0 →
  enrollment_tokens (exec cs st) !! t = None.
Proof.
  revert st. induction cs as [|c cs IH]; intros st Hnone Hc; simpl in *; [done|].
  destruct (issues t c st) eqn:Hi; [lia|].
  apply IH; [by apply handle_token_absent | lia].
Qed.

Lemma sites_closed_init : sites_closed init.
Proof. split; intros ? ?; simpl; by rewrite lookup_empty. Qed.

Lemma sites_closed_handle c st :
  sites_closed st → sites_closed (handle c st).1.
Proof.
  intros [He Ht]. pose proof (handle_sites_mono c st) as Hmono.
  destruct c as [s cfg|s|s u|req|e| |]; simpl in *; try (by split).
  - split; simpl; eauto.
  - unfold generate_token in *. destruct (sites st !! s) as [cfg|] eqn:Es;
      simpl in *; [|by split].
    split; simpl; [done|]. intros t s'.
    destruct (decide (u = t)) as [->|Hne].
    + rewrite lookup_insert_eq. intros [= <-]. eauto.
    + rewrite lookup_insert_ne by done. eauto.
  - unfold register_edge in *.
    destruct (enrollment_tokens st !! req_token req) as [site|] eqn:Et;
      simpl in *; [|by split].
    split; simpl.
    + intros e r. destruct (decide (req_edge_id req = e)) as [->|Hne].
      * rewrite lookup_insert_eq. intros [= <-]. simpl. eauto.
      * rewrite lookup_insert_ne by done. eauto.
    + intros t s'. destruct (decide (req_token req = t)) as [->|Hne].
      * by rewrite lookup_delete_eq.
      * rewrite lookup_delete_ne by done. eauto.
Qed.

Lemma sites_closed_exec cs st : sites_closed st → sites_closed (exec cs st).
Proof.
  revert st. induction cs as [|c cs IH]; intros st H; simpl; [done|].
  by apply IH, sites_closed_handle.
Qed.

(** A binding of [e] survives every call that is not a successful
    [register_edge] for [e]. *)
Lemma handle_binding_stable e c st :
  binds e c st = false → edges (handle c st).1 !! e = edges st !! e.
Proof.
  destruct c as [s cfg|s|s u|req|e'| |]; simpl; try done.
  - unfold generate_token. by destruct (sites st !! s).
  - unfold register_edge.
    destruct (enrollment_tokens st !! req_token req) as [site|] eqn:Et;
      simpl; [|done].
    rewrite andb_true_r. intros Hne%bool_decide_eq_false.
    by rewrite lookup_insert_ne.
Qed.

Lemma exec_binding_stable e cs st :
  count (binds e) cs st = 0 → edges (exec cs st) !! e = edges st !! e.
Proof.
  revert st. induction cs as [|c cs IH]; intros st Hc; simpl in *; [done|].
  destruct (binds e c st) eqn:Hb; [lia|].
  rewrite IH by lia. by apply handle_binding_stable.
Qed.

(** *** The claims about the cloud *)

(** C1 (at-most-once redemption).  Once a [register_edge] call carrying
    token [t] has succeeded, then along any further calls in which [t] is
    not issued again no [register_edge] carrying [t] succeeds, and one made
    after them fails with the invalid-token error, status 400, leaving the
    state alone.  From the empty cloud, a token issued at most once yields
    at most one successful registration. *)
Theorem at_most_once_redemption (t : string) :
  (∀ st req st1 body,
     req_token req = t →
     register_edge req st = (st1, Return body) →
     ∀ cs, count (issues t) cs st1 = 0 →
       count (redeems t) cs st1 = 0
       ∧ ∀ req2, req_token req2 = t →
           register_edge req2 (exec cs st1) = (exec cs st1, Raise invalid_token)
           ∧ status_code invalid_token = 400%Z)
  ∧ (∀ cs, count (issues t) cs init ≤ 1 → count (redeems t) cs init ≤ 1).
Proof.
  split.
  - intros st req st1 body <- Hreg cs Hiss.
    destruct (register_edge_Return _ _ _ _ Hreg) as (site & Htok & _ & Heq).
    assert (enrollment_tokens st1 !! req_token req = None) as Hgone.
    { rewrite Heq in Hreg. inversion Hreg; subst st1; simpl.
      apply lookup_delete_eq. }
    split.
    + pose proof (redeemed_le_issued (req_token req) cs st1) as Hle.
      rewrite Hgone in Hle. lia.
    + intros req2 Hreq2. split; [|done].
      apply register_edge_None. rewrite Hreq2.
      by apply exec_token_absent.
  - intros cs Hiss.
    pose proof (redeemed_le_issued t cs init) as Hle.
    simpl in Hle. rewrite lookup_empty in Hle. lia.
Qed.

Lemma at_most_once_redemption_witness :
  (register_edge edge9_t1
     (exec [GenerateToken "site-B" "t3"; RegisterEdge edge9_t2]
           (register_edge edge9_t1 two_sites).1)).2 = Raise invalid_token
  ∧ count (redeems "t1")
      [SetDesiredConfig "site-A" config_v1; GenerateToken "site-A" "t1";
       RegisterEdge edge9_t1; RegisterEdge edge9_t1] init ≤ 1.
Proof.
  destruct (at_most_once_redemption "t1") as [Hafter Hcount].
  split.
  - destruct (Hafter two_sites edge9_t1 (register_edge edge9_t1 two_sites).1
                {[ "site_id" := "site-A" ]} eq_refl eq_refl
                [GenerateToken "site-B" "t3"; RegisterEdge edge9_t2] eq_refl)
      as [_ Hfail].
    destruct (Hfail edge9_t1 eq_refl) as [Heq _].
    exact (f_equal snd Heq).
  - apply Hcount. vm_compute. lia.
Defined.

(** C2 (register failure atomicity).  When the token is not in the token
    store, [register_edge] raises the invalid-token error and the state it
    leaves is the state it found. *)
Theorem register_failure_atomic (st : State) (req : RegisterRequest) :
  enrollment_tokens st !! req_token req = None →
  register_edge req st = (st, Raise invalid_token).
Proof. apply register_edge_None. Qed.

Lemma register_failure_atomic_witness :
  register_edge {| req_edge_id := "edge-9"; req_token := "stale" |} two_sites
  = (two_sites, Raise invalid_token).
Proof. apply register_failure_atomic. reflexivity. Defined.

(** C3 as the spec words it does not hold: registering the same edge
    with a second valid token moves its binding to that token's site. *)
Lemma binding_stability_counterexample : ¬ binding_stability_as_stated.
Proof.
  intros H.
  destruct (H two_sites edge9_t1 (register_edge edge9_t1 two_sites).1
              "site-A" eq_refl [RegisterEdge edge9_t2]) as [Hb _].
  vm_compute in Hb. discriminate Hb.
Qed.

(** C3 (binding stability, amended).  Once [register_edge] has succeeded
    for an edge with site [S], then after any further calls among which
    there is no successful [register_edge] for that edge, the edge is
    still bound to [S] and [get_edge_config] answers what
    [get_desired_config S] answers, whatever was written to [S] since. *)
Theorem binding_stability (st st1 : State) (req : RegisterRequest)
    (S : string) (cs : list Call) :
  register_edge req st = (st1, Return {[ "site_id" := S ]}) →
  count (binds (req_edge_id req)) cs st1 = 0 →
  edges (exec cs st1) !! req_edge_id req
    = Some {| site_id := S; edge_id := req_edge_id req |}
  ∧ binding (req_edge_id req) (exec cs st1) = Some S
  ∧ get_edge_config (req_edge_id req) (exec cs st1)
    = get_desired_config S (exec cs st1).
Proof.
  intros Hreg Hcs.
  destruct (register_edge_Return _ _ _ _ Hreg) as (site & Htok & Hbody & Heq).
  apply site_id_body_inj in Hbody. subst site.
  assert (edges (exec cs st1) !! req_edge_id req
          = Some {| site_id := S; edge_id := req_edge_id req |}) as Hb.
  { rewrite exec_binding_stable by done.
    rewrite Heq in Hreg. inversion Hreg; subst st1; simpl.
    apply lookup_insert_eq. }
  split; [done|]. split.
  - unfold binding. by rewrite Hb.
  - unfold get_edge_config, get_desired_config. by rewrite Hb.
Qed.

Lemma binding_stability_witness :
  get_edge_config "edge-9"
    (exec [SetDesiredConfig "site-A" config_v2;
           RegisterEdge {| req_edge_id := "edge-7"; req_token := "t2" |};
           RegisterEdge edge9_t1]
          (register_edge edge9_t1 two_sites).1)
  = Return config_v2.
Proof.
  destruct (binding_stability two_sites (register_edge edge9_t1 two_sites).1
              edge9_t1 "site-A"
              [SetDesiredConfig "site-A" config_v2;
               RegisterEdge {| req_edge_id := "edge-7"; req_token := "t2" |};
               RegisterEdge edge9_t1] eq_refl eq_refl) as (_ & _ & Hcfg).
  exact Hcfg.
Defined.

(** C4 (re-registration overwrite).  With a token bound to site [S2],
    [register_edge] succeeds and returns [S2] whatever the edge was bound
    to before, and the edge is then bound to [S2]; a missing token is the
    only way [register_edge] fails. *)
Theorem reregistration_overwrites (st : State) (e t2 S2 : string) :
  enrollment_tokens st !! t2 = Some S2 →
  let out := register_edge {| req_edge_id := e; req_token := t2 |} st in
  out.2 = Return {[ "site_id" := S2 ]}
  ∧ edges out.1 !! e = Some {| site_id := S2; edge_id := e |}
  ∧ binding e out.1 = Some S2
  ∧ (∀ req st' err, (register_edge req st').2 = Raise err →
       enrollment_tokens st' !! req_token req = None ∧ err = invalid_token)
  ∧ (∀ req st', is_Some (enrollment_tokens st' !! req_token req) →
       succeeded (register_edge req st').2 = true).
Proof.
  intros Htok out. subst out.
  rewrite (register_edge_Some {| req_edge_id := e; req_token := t2 |} st S2 Htok).
  simpl. unfold binding. simpl. rewrite lookup_insert_eq.
  split; [done|]. split; [done|]. split; [done|]. split.
  - intros req st' err Herr. unfold register_edge in Herr.
    destruct (enrollment_tokens st' !! req_token req); simpl in Herr.
    + discriminate Herr.
    + by inversion Herr.
  - intros req st' Hs. rewrite succeeded_register. by apply bool_decide_eq_true_2.
Qed.

Lemma reregistration_overwrites_witness :
  binding "edge-9" (register_edge edge9_t1 two_sites).1 = Some "site-A"
  ∧ binding "edge-9"
      (register_edge edge9_t2 (register_edge edge9_t1 two_sites).1).1
    = Some "site-B".
Proof.
  split; [reflexivity|].
  destruct (reregistration_overwrites (register_edge edge9_t1 two_sites).1
              "edge-9" "t2" "site-B" eq_refl) as (_ & _ & Hb & _).
  exact Hb.
Defined.

(** C7 (error taxonomy of [get_edge_config]).  Without a binding the call
    raises "edge not registered"; with a binding to a site that has no
    stored configuration it raises "site not found"; otherwise it returns
    the configuration stored for the bound site.  The two errors are
    different exceptions (they differ in [detail]; both carry 404). *)
Theorem get_edge_config_taxonomy (st : State) (e : string) :
  (edges st !! e = None → get_edge_config e st = Raise edge_not_registered)
  ∧ (∀ r, edges st !! e = Some r → sites st !! site_id r = None →
       get_edge_config e st = Raise site_not_found)
  ∧ (∀ r cfg, edges st !! e = Some r → sites st !! site_id r = Some cfg →
       get_edge_config e st = Return cfg)
  ∧ edge_not_registered ≠ site_not_found
  ∧ detail edge_not_registered ≠ detail site_not_found
  ∧ status_code edge_not_registered = 404%Z
  ∧ status_code site_not_found = 404%Z.
Proof.
  unfold get_edge_config. repeat split.
  - by intros ->.
  - by intros r -> ->.
  - by intros r cfg -> ->.
  - discriminate.
  - discriminate.
Qed.

Lemma get_edge_config_taxonomy_witness :
  get_edge_config "edge-9" two_sites = Raise edge_not_registered
  ∧ get_edge_config "edge-9"
      {| sites := ∅; enrollment_tokens := ∅;
         edges := {[ "edge-9" := {| site_id := "site-A"; edge_id := "edge-9" |} ]} |}
    = Raise site_not_found
  ∧ get_edge_config "edge-9" (register_edge edge9_t1 two_sites).1
    = Return config_v1.
Proof.
  split; [|split].
  - apply (get_edge_config_taxonomy two_sites "edge-9"). reflexivity.
  - eapply (get_edge_config_taxonomy _ "edge-9"); reflexivity.
  - eapply (get_edge_config_taxonomy _ "edge-9"); reflexivity.
Defined.

(** C8 (config store round trip and idempotence).  [set_desired_config]
    always returns its "saved" body; a [get_desired_config] for the same
    site right after it returns the configuration just written; writing
    the same configuration again leaves the state as it is. *)
Theorem config_roundtrip_idempotent (st : State) (site : string)
    (C : gmap string json) :
  let st' := (set_desired_config site C st).1 in
  (set_desired_config site C st).2 = Return {[ "status" := "saved" ]}
  ∧ get_desired_config site st' = Return C
  ∧ set_desired_config site C st' = (st', Return {[ "status" := "saved" ]}).
Proof.
  simpl. split; [done|]. split.
  - unfold get_desired_config. simpl. by rewrite lookup_insert_eq.
  - unfold set_desired_config. simpl. by rewrite insert_insert_eq.
Qed.

(** C9 (sites closure).  In every state reachable from the empty cloud by
    API calls, the site of every binding and of every active token is a key
    of [sites], and [get_edge_config] never raises "site not found". *)
Theorem reachable_sites_closed (st : State) :
  reachable st →
  (∀ e r, edges st !! e = Some r → is_Some (sites st !! site_id r))
  ∧ (∀ t s, enrollment_tokens st !! t = Some s → is_Some (sites st !! s))
  ∧ (∀ e, get_edge_config e st ≠ Raise site_not_found).
Proof.
  intros [cs <-].
  destruct (sites_closed_exec cs init sites_closed_init) as [He Ht].
  split; [done|]. split; [done|].
  intros e. unfold get_edge_config.
  destruct (edges (exec cs init) !! e) as [r|] eqn:Er; [|discriminate].
  destruct (He e r Er) as [cfg ->]. discriminate.
Qed.

Lemma reachable_sites_closed_witness :
  get_edge_config "edge-9" (register_edge edge9_t1 two_sites).1
  ≠ Raise site_not_found.
Proof.
  apply (reachable_sites_closed (register_edge edge9_t1 two_sites).1).
  exists [SetDesiredConfig "site-A" config_v1;
          SetDesiredConfig "site-B" config_v2;
          GenerateToken "site-A" "t1";
          GenerateToken "site-B" "t2";
          RegisterEdge edge9_t1].
  reflexivity.
Defined.

End CloudSpec.

(** ** Properties of the edge agent *)

Module EdgeSpec.
Import Edge.

(** Running a sequence runs its parts one after the other. *)
Lemma run_bind {A B} (p : Prog A) (f : A → Prog B) script :
  run (bind p f) script =
    let '(a, acts, rest) := run p script in
    let '(b, acts', rest') := run (f a) rest in
    (b, acts ++ acts', rest').
Proof.
  revert script. induction p as [a|X e k IH]; intros script; simpl.
  - by destruct (run (f a) script) as [[b acts'] rest'].
  - destruct e; simpl.
    + destruct (next script) as [r rest]. rewrite IH.
      destruct (run (k r) rest) as [[a acts] rest1].
      by destruct (run (f a) rest1) as [[b acts'] rest'].
    + destruct (next script) as [r rest]. rewrite IH.
      destruct (run (k r) rest) as [[a acts] rest1].
      by destruct (run (f a) rest1) as [[b acts'] rest'].
    + rewrite IH.
      destruct (run (k ()) script) as [[a acts] rest1].
      by destruct (run (f a) rest1) as [[b acts'] rest'].
Qed.

(** A failed registration attempt is a no-op on the object. *)
Lemma register_http_error s r script :
  str_truthy (token s) = true → http_error r = true →
  run (register_with_cloud s) (r :: script)
  = ((s, Normal),
     [Posted (register_url s) (register_payload s (default EmptyString (token s))) 10],
     script).
Proof.
  intros Htok Herr. unfold register_with_cloud. rewrite Htok. simpl.
  destruct r as [resp|]; simpl in *; [|done]. by rewrite Herr.
Qed.

(** A sequence starts with the actions of its first part. *)
Lemma actions_bind {A B} (p : Prog A) (f : A → Prog B) script :
  ∃ more, actions_of (bind p f) script = actions_of p script ++ more.
Proof.
  unfold actions_of. rewrite run_bind.
  destruct (run p script) as [[a acts] rest].
  destruct (run (f a) rest) as [[b acts'] rest']. simpl. eauto.
Qed.

(** An agent with a token opens [register_with_cloud] with its POST. *)
Lemma register_posts_first s script :
  str_truthy (token s) = true →
  ∃ more,
    actions_of (register_with_cloud s) script
    = Posted (register_url s)
        (register_payload s (default EmptyString (token s))) 10 :: more.
Proof.
  intros Htok. unfold actions_of, register_with_cloud. rewrite Htok. simpl.
  destruct (next script) as [r rest].
  match goal with
  | |- context [run ?p rest] => destruct (run p rest) as [[a acts] rest']
  end.
  simpl. eauto.
Qed.

(** Whatever the network answers, [refresh_config] assigns to nothing but
    [config]. *)
Lemma refresh_frame s script :
  ∃ body, state_after (refresh_config s) script = with_config s body.
Proof.
  unfold state_after, refresh_config.
  destruct (negb (registered s) || negb (truthy (site_id s))); simpl.
  { exists (config s). by destruct s. }
  destruct (next script) as [[resp|] rest]; simpl.
  - destruct (raise_for_status resp); simpl.
    { exists (config s). by destruct s. }
    destruct (json_body resp) as [body|]; simpl.
    + by exists body.
    + exists (config s). by destruct s.
  - exists (config s). by destruct s.
Qed.

Lemma agent_token_inv s : agent_state s → token_inv s.
Proof.
  induction 1 as [e u t|s script _ IH|s script _ IH].
  - by intros _.
  - unfold state_after, register_with_cloud.
    destruct (str_truthy (token s)); simpl; [|done].
    destruct (next script) as [[resp|] rest]; simpl; [|done].
    destruct (raise_for_status resp); simpl; [done|].
    destruct (json_body resp) as [[| | | | | |data]|]; simpl; try done.
    by intros [? [=]].
  - destruct (refresh_frame s script) as [body ->]. exact IH.
Qed.

Lemma tick_stuck s :
  registered s = true → truthy (site_id s) = false →
  tick s = sleep 15 s.
Proof.
  intros Hreg Hsite. unfold tick, andthen. rewrite Hreg. simpl.
  unfold refresh_config. by rewrite Hreg, Hsite.
Qed.

Lemma ticks_stuck n s script :
  registered s = true → truthy (site_id s) = false →
  run (ticks n s) script = ((s, Normal), replicate n (Slept 15), script).
Proof.
  intros Hreg Hsite. induction n as [|n IH]; simpl; [done|].
  rewrite tick_stuck by done. unfold andthen. simpl. by rewrite IH.
Qed.

(** *** The claims about the edge agent *)

(** C5 (retry safety on the edge).  When the agent holds a token and the
    registration request ends in a transport or HTTP-status error (a 400
    among them), the call posts once, returns normally and leaves the
    object as it was.  For an object the agent can really hold, that means:
    the token is still there, [registered] is still [False], [site_id] is
    still [None], and the next loop iteration starts with the same POST. *)
Theorem register_retry_safety (s : EdgeState) (r : HttpResult)
    (script : list HttpResult) :
  str_truthy (token s) = true →
  http_error r = true →
  let request :=
    Posted (register_url s) (register_payload s (default EmptyString (token s))) 10 in
  let s' := state_after (register_with_cloud s) (r :: script) in
  s' = s
  ∧ completion_of (register_with_cloud s) (r :: script) = Normal
  ∧ actions_of (register_with_cloud s) (r :: script) = [request]
  ∧ (∀ body, http_error (Responded {| status_code := 400; json_body := body |}) = true)
  ∧ (agent_state s →
       token s' = token s ∧ registered s' = false ∧ site_id s' = JNull
       ∧ ∀ script', ∃ more, actions_of (tick s') script' = request :: more).
Proof.
  intros Htok Herr request s'.
  assert (s' = s) as Hs.
  { subst s'. unfold state_after. by rewrite register_http_error. }
  split; [done|]. split.
  { unfold completion_of. by rewrite register_http_error. }
  split.
  { unfold actions_of. by rewrite register_http_error. }
  split; [done|].
  intros Hagent. rewrite Hs.
  destruct (agent_token_inv s Hagent) as [Hreg Hsite].
  { destruct (token s); [eauto | done]. }
  split; [done|]. split; [done|]. split; [done|].
  intros script'. unfold tick, andthen. rewrite Hreg, Htok. simpl.
  destruct (register_posts_first s script' Htok) as [more1 Hfirst].
  destruct (actions_bind (register_with_cloud s)
              (λ '(s0, c), match c with
                           | Normal => refresh_config s0
                           | Escaped _ => Ret (s0, c)
                           end) script') as [more2 H2].
  match goal with
  | |- context [actions_of (bind ?p ?f) script'] =>
      destruct (actions_bind p f script') as [more3 H3]; rewrite H3
  end.
  rewrite H2, Hfirst. simpl. eauto.
Qed.

Lemma register_retry_safety_witness :
  state_after (register_with_cloud edge1) [bad_request] = edge1
  ∧ token (state_after (register_with_cloud edge1) [bad_request]) = Some "t1"
  ∧ registered (state_after (register_with_cloud edge1) [bad_request]) = false
  ∧ site_id (state_after (register_with_cloud edge1) [bad_request]) = JNull.
Proof.
  destruct (register_retry_safety edge1 bad_request [] eq_refl eq_refl)
    as (Hsame & _ & _ & _ & Hagent).
  destruct (Hagent (agent_init "edge-1" "http://cloud-api:8080/" (Some "t1")))
    as (Htok & Hreg & Hsite & _).
  split; [exact Hsame|]. split; [exact Htok|]. split; [exact Hreg|exact Hsite].
Defined.

(** C6 (refresh failure preserves the cache).  Whatever the network
    answers, [refresh_config] leaves [edge_id], [cloud_url], [token],
    [site_id] and [registered] as they were.  When the request ends in a
    transport or HTTP-status error the whole object, cached configuration
    included, is unchanged and the call returns normally.  When a
    registered agent with a site gets a 2xx response, the cached
    configuration becomes the decoded response body and nothing else
    changes. *)
Theorem refresh_preserves_cache (s : EdgeState) (r : HttpResult)
    (script : list HttpResult) :
  let s' := state_after (refresh_config s) (r :: script) in
  (edge_id s' = edge_id s ∧ cloud_url s' = cloud_url s ∧ token s' = token s
   ∧ site_id s' = site_id s ∧ registered s' = registered s)
  ∧ (http_error r = true →
       s' = s ∧ completion_of (refresh_config s) (r :: script) = Normal)
  ∧ (∀ resp body,
       registered s = true → truthy (site_id s) = true →
       r = Responded resp → raise_for_status resp = false →
       json_body resp = Some body →
       s' = with_config s body
       ∧ config s' = body
       ∧ completion_of (refresh_config s) (r :: script) = Normal
       ∧ actions_of (refresh_config s) (r :: script) = [Fetched (config_url s) 10]).
Proof.
  intros s'. split; [|split].
  - subst s'. by destruct (refresh_frame s (r :: script)) as [body ->].
  - intros Herr. subst s'. unfold state_after, completion_of, refresh_config.
    destruct (negb (registered s) || negb (truthy (site_id s))); simpl; [done|].
    destruct r as [resp|]; simpl in *; [|done]. by rewrite Herr.
  - intros resp body Hreg Hsite -> Hok Hbody. subst s'.
    unfold state_after, completion_of, actions_of, refresh_config.
    rewrite Hreg, Hsite. simpl. rewrite Hok, Hbody. simpl.
    unfold with_config. by rewrite Hreg.
Qed.

Lemma refresh_preserves_cache_witness :
  let s := state_after (register_with_cloud edge1) [ok_site_A] in
  let s1 := state_after (refresh_config s) [ok_config] in
  config s1 = JObj {[ "v" := JInt 1 ]}
  ∧ state_after (refresh_config s1) [TransportError] = s1.
Proof.
  intros s s1. split.
  - destruct (refresh_preserves_cache s ok_config []) as (_ & _ & Hok).
    destruct (Hok {| status_code := 200;
                     json_body := Some (JObj {[ "v" := JInt 1 ]}) |}
                (JObj {[ "v" := JInt 1 ]})
                eq_refl eq_refl eq_refl eq_refl eq_refl) as (_ & Hcfg & _).
    exact Hcfg.
  - destruct (refresh_preserves_cache s1 TransportError []) as (_ & Hfail & _).
    destruct (Hfail eq_refl) as [Hsame _]. exact Hsame.
Defined.

(** C10 (registered without a site).  When the registration request gets
    a 2xx response whose JSON object has no "site_id" key, the agent ends
    up with [registered = True], no token and [site_id = None].  In that
    state [refresh_config] returns at once without a request, and every
    loop iteration only sleeps: after any number of iterations, against
    any network, the object is the same, so it never gets a site or a
    configuration. *)
Theorem register_without_site_id (s : EdgeState) (resp : Response)
    (data : gmap string json) (script : list HttpResult) :
  str_truthy (token s) = true →
  raise_for_status resp = false →
  json_body resp = Some (JObj data) →
  data !! "site_id" = None →
  let s' := state_after (register_with_cloud s) (Responded resp :: script) in
  s' = stuck s
  ∧ (registered s' = true ∧ token s' = None ∧ site_id s' = JNull
     ∧ config s' = config s)
  ∧ refresh_config s' = Ret (s', Normal)
  ∧ register_with_cloud s' = Ret (s', Normal)
  ∧ ∀ n script',
      run (ticks n s') script' = ((s', Normal), replicate n (Slept 15), script').
Proof.
  intros Htok Hok Hbody Hkey s'.
  assert (s' = stuck s) as ->.
  { subst s'. unfold state_after, register_with_cloud. rewrite Htok. simpl.
    rewrite Hok, Hbody. simpl. unfold dict_get. by rewrite Hkey. }
  split; [done|]. split; [done|]. split; [done|]. split; [done|].
  intros n script'. by apply ticks_stuck.
Qed.

Lemma register_without_site_id_witness :
  let s := state_after (register_with_cloud edge1) [ok_no_site] in
  registered s = true ∧ token s = None ∧ site_id s = JNull ∧ config s = JNull
  ∧ run (ticks 3 s) [ok_site_A; ok_config]
    = ((s, Normal), [Slept 15; Slept 15; Slept 15], [ok_site_A; ok_config]).
Proof.
  intros s.
  assert (({[ "status" := JStr "ok" ]} : gmap string json) !! "site_id" = None)
    as Hkey by (vm_compute; reflexivity).
  destruct (register_without_site_id edge1
              {| status_code := 200;
                 json_body := Some (JObj {[ "status" := JStr "ok" ]}) |}
              {[ "status" := JStr "ok" ]} []
              eq_refl eq_refl eq_refl Hkey)
    as (_ & (Hreg & Htok & Hsite & Hcfg) & _ & _ & Hticks).
  split; [exact Hreg|]. split; [exact Htok|]. split; [exact Hsite|].
  split; [exact Hcfg|]. exact (Hticks 3 [ok_site_A; ok_config]).
Defined.

End EdgeSpec.

(** ** The scenario of the spec, run on the model *)

Module Scenario.
Import Cloud.

Example cloud_scenario :
  replies [SetDesiredConfig "site-A" config_v1;
           GenerateToken "site-A" "t1";
           RegisterEdge edge9_t1;
           GetEdgeConfig "edge-9";
           SetDesiredConfig "site-A" config_v2;
           GetEdgeConfig "edge-9";
           RegisterEdge edge9_t1;
           GenerateToken "site-Z" "t9";
           GetEdgeConfig "edge-7"] init
  = [Status (Return {[ "status" := "saved" ]});
     Status (Return {[ "token" := "t1" ]});
     Status (Return {[ "site_id" := "site-A" ]});
     Config (Return config_v1);
     Status (Return {[ "status" := "saved" ]});
     Config (Return config_v2);
     Status (Raise invalid_token);
     Status (Raise site_not_found);
     Config (Raise edge_not_registered)].
Proof. vm_compute. reflexivity. Qed.

Example rstrip_examples :
  Edge.rstrip_slash "http://cloud-api:8080//" = "http://cloud-api:8080"
  ∧ Edge.rstrip_slash "a/b/" = "a/b"
  ∧ Edge.rstrip_slash "///" = EmptyString.
Proof. repeat split. Qed.

(** Startup against a cloud that is down, then rejects, then accepts: the
    agent posts the same request three times, then fetches. *)
Example agent_scenario :
  let request :=
    Edge.Posted "http://cloud-api:8080/api/edge/register"
      (JObj {[ "edge_id" := JStr "edge-1"; "token" := JStr "t1" ]}) 10 in
  Edge.run (Edge.run_background_tasks 2 Edge.edge1)
    [Edge.TransportError; Edge.bad_request; Edge.ok_site_A; Edge.ok_config]
  = (({| Edge.edge_id := "edge-1";
         Edge.cloud_url := "http://cloud-api:8080";
         Edge.token := None;
         Edge.site_id := JStr "site-A";
         Edge.registered := true;
         Edge.config := JObj {[ "v" := JInt 1 ]} |}, Edge.Normal),
     [request; request; Edge.Slept 15; request;
      Edge.Fetched "http://cloud-api:8080/api/edges/edge-1/desired-config" 10;
      Edge.Slept 15],
     []).
Proof. vm_compute. reflexivity. Qed.

(** A 2xx answer that is not a JSON object makes [data.get] raise, and the
    exception leaves the loop. *)
Example agent_attribute_error :
  Edge.completion_of (Edge.run_background_tasks 2 Edge.edge1)
    [Edge.Responded {| Edge.status_code := 200;
                       Edge.json_body := Some (JArr []) |}]
  = Edge.Escaped Edge.AttributeError.
Proof. reflexivity. Qed.

End Scenario.

(** ** Further properties of the cloud API *)

Module CloudMore.
Import Cloud.

Lemma sites_after cs st site :
  sites (exec cs st) !! site
  = match last_write site cs with
    | Some C => Some C
    | None => sites st !! site
    end.
Proof.
  revert st. induction cs as [|c cs IH]; intros st; simpl; [done|].
  rewrite IH. destruct (last_write site cs) as [C|]; [done|].
  destruct c as [s C|s|s u|req|e| |]; simpl; try done.
  - destruct (decide (s = site)) as [->|Hne].
    + by rewrite lookup_insert_eq.
    + by rewrite lookup_insert_ne.
  - unfold generate_token. by destruct (sites st !! s).
  - unfold register_edge. by destruct (enrollment_tokens st !! req_token req).
Qed.

Lemma handle_edges_mono c st e :
  is_Some (edges st !! e) → is_Some (edges (handle c st).1 !! e).
Proof.
  intros H. destruct c as [s C|s|s u|req|e'| |]; simpl; try done.
  - unfold generate_token. by destruct (sites st !! s).
  - unfold register_edge. destruct (enrollment_tokens st !! req_token req); [|done].
    simpl. destruct (decide (req_edge_id req = e)) as [->|Hne].
    + rewrite lookup_insert_eq. eauto.
    + by rewrite lookup_insert_ne.
Qed.

Lemma exec_edges_mono cs st e :
  is_Some (edges st !! e) → is_Some (edges (exec cs st) !! e).
Proof.
  revert st. induction cs as [|c cs IH]; intros st H; simpl; [done|].
  by apply IH, handle_edges_mono.
Qed.

Lemma handle_token_kept t s c st :
  enrollment_tokens st !! t = Some s →
  issues t c st = false → redeems t c st = false →
  enrollment_tokens (handle c st).1 !! t = Some s.
Proof.
  intros Htok Hi Hr. destruct c as [s' C|s'|s' u|req|e| |]; simpl in *; try done.
  - unfold generate_token in *. destruct (sites st !! s'); simpl in *; [|done].
    rewrite andb_true_r in Hi. apply bool_decide_eq_false in Hi.
    by rewrite lookup_insert_ne.
  - unfold register_edge in *.
    destruct (enrollment_tokens st !! req_token req); simpl in *; [|done].
    rewrite andb_true_r in Hr. apply bool_decide_eq_false in Hr.
    by rewrite lookup_delete_ne.
Qed.

Lemma exec_token_kept t s cs st :
  enrollment_tokens st !! t = Some s →
  count (issues t) cs st = 0 → count (redeems t) cs st = 0 →
  enrollment_tokens (exec cs st) !! t = Some s.
Proof.
  revert st. induction cs as [|c cs IH]; intros st Htok Hi Hr; simpl in *; [done|].
  destruct (issues t c st) eqn:Ei; [lia|].
  destruct (redeems t c st) eqn:Er; [lia|].
  apply IH; [by apply handle_token_kept | lia | lia].
Qed.

Lemma provenance_weaken cs c st : provenance cs st → provenance (cs ++ [c]) st.
Proof.
  intros [Ht He]. split.
  - intros t s H. apply elem_of_app. left. eauto.
  - intros e r H. destruct (He e r H) as (Hid & t & H1 & H2).
    split; [done|]. exists t. split; apply elem_of_app; by left.
Qed.

Lemma provenance_handle cs c st :
  provenance cs st → provenance (cs ++ [c]) (handle c st).1.
Proof.
  intros Hp. pose proof (provenance_weaken cs c st Hp) as [Ht He].
  destruct c as [s C|s|s u|req|e| |]; simpl; try (by split).
  - unfold generate_token. destruct (sites st !! s); simpl; [|by split].
    split; simpl; [|done]. intros t s'.
    destruct (decide (u = t)) as [->|Hne].
    + rewrite lookup_insert_eq. intros [= <-].
      apply elem_of_app. right. apply list_elem_of_singleton. done.
    + rewrite lookup_insert_ne by done. eauto.
  - unfold register_edge.
    destruct (enrollment_tokens st !! req_token req) as [site|] eqn:Et;
      simpl; [|by split].
    split; simpl.
    + intros t s'. destruct (decide (req_token req = t)) as [->|Hne].
      * by rewrite lookup_delete_eq.
      * rewrite lookup_delete_ne by done. eauto.
    + intros e r. destruct (decide (req_edge_id req = e)) as [<-|Hne].
      * rewrite lookup_insert_eq. intros [= <-]. simpl. split; [done|].
        exists (req_token req). split.
        -- apply elem_of_app. right. apply list_elem_of_singleton.
           by destruct req.
        -- eauto.
      * rewrite lookup_insert_ne by done. eauto.
Qed.

Lemma provenance_exec cs0 cs st :
  provenance cs0 st → provenance (cs0 ++ cs) (exec cs st).
Proof.
  revert cs0 st. induction cs as [|c cs IH]; intros cs0 st Hp; simpl.
  - by rewrite app_nil_r.
  - replace (cs0 ++ c :: cs) with ((cs0 ++ [c]) ++ cs)
      by (by rewrite <- app_assoc).
    by apply IH, provenance_handle.
Qed.

Lemma provenance_init : provenance [] init.
Proof. split; intros ? ?; simpl; by rewrite lookup_empty. Qed.

(** *** Composition of the handlers *)

(** X1 (enrollment round trip).  From any state: write configuration [C]
    for a site, issue a token for it, register an edge with that token.
    The issuance returns the token, the registration returns the site, the
    edge's configuration is [C], and the token is no longer active. *)
Theorem enrollment_roundtrip (st : State) (site u e : string)
    (C : gmap string json) :
  let st1 := (set_desired_config site C st).1 in
  let st2 := (generate_token site u st1).1 in
  let out := register_edge {| req_edge_id := e; req_token := u |} st2 in
  (generate_token site u st1).2 = Return {[ "token" := u ]}
  ∧ out.2 = Return {[ "site_id" := site ]}
  ∧ get_edge_config e out.1 = Return C
  ∧ enrollment_tokens out.1 !! u = None
  ∧ (register_edge {| req_edge_id := e; req_token := u |} out.1).2
    = Raise invalid_token.
Proof.
  simpl. unfold generate_token. simpl. rewrite lookup_insert_eq. simpl.
  split; [done|].
  unfold register_edge. simpl. rewrite lookup_insert_eq. simpl.
  split; [done|]. split.
  - unfold get_edge_config. simpl. rewrite lookup_insert_eq. simpl.
    by rewrite lookup_insert_eq.
  - rewrite lookup_delete_eq. done.
Qed.

(** X2 (sites are never deleted).  Once a site has a configuration, after
    any sequence of calls [get_desired_config] still returns one and
    [generate_token] still issues a token for it. *)
Theorem site_stays_known (st : State) (site : string) (cs : list Call) :
  is_Some (sites st !! site) →
  succeeded (get_desired_config site (exec cs st)) = true
  ∧ ∀ u, (generate_token site u (exec cs st)).2 = Return {[ "token" := u ]}.
Proof.
  intros H. destruct (CloudSpec.exec_sites_mono cs st site H) as [C HC].
  unfold get_desired_config, generate_token. by rewrite HC.
Qed.

Lemma site_stays_known_witness :
  succeeded (get_desired_config "site-A"
               (exec [RegisterEdge edge9_t1; SetDesiredConfig "site-B" config_v1]
                     two_sites)) = true.
Proof.
  apply (site_stays_known two_sites "site-A"
           [RegisterEdge edge9_t1; SetDesiredConfig "site-B" config_v1]).
  vm_compute. eauto.
Defined.

(** X3 (last writer wins).  After any sequence of calls,
    [get_desired_config] for a site returns the configuration of the last
    [set_desired_config] for that site in the sequence; when there is none
    it answers as it did before the sequence.  Token and registration
    traffic never changes a stored configuration. *)
Theorem last_writer_wins (st : State) (site : string) (cs : list Call) :
  get_desired_config site (exec cs st)
  = match last_write site cs with
    | Some C => Return C
    | None => get_desired_config site st
    end.
Proof.
  unfold get_desired_config. rewrite sites_after.
  by destruct (last_write site cs).
Qed.

(** X4 (edges are never deleted).  Once an edge is registered it stays
    registered: after any sequence of calls [get_edge_config] does not
    raise "edge not registered". *)
Theorem edge_stays_registered (st : State) (e : string) (cs : list Call) :
  is_Some (edges st !! e) →
  is_Some (edges (exec cs st) !! e)
  ∧ get_edge_config e (exec cs st) ≠ Raise edge_not_registered.
Proof.
  intros H. destruct (exec_edges_mono cs st e H) as [r Hr].
  split; [eauto|]. unfold get_edge_config. rewrite Hr.
  by destruct (sites (exec cs st) !! site_id r).
Qed.

Lemma edge_stays_registered_witness :
  get_edge_config "edge-9"
    (exec [RegisterEdge edge9_t2; SetDesiredConfig "site-A" config_v2]
          (register_edge edge9_t1 two_sites).1)
  ≠ Raise edge_not_registered.
Proof.
  apply (edge_stays_registered (register_edge edge9_t1 two_sites).1 "edge-9"
           [RegisterEdge edge9_t2; SetDesiredConfig "site-A" config_v2]).
  vm_compute. eauto.
Defined.

(** X5 (tokens do not expire).  An active token stays active, for the same
    site, across any sequence of calls that neither redeems it nor issues
    it again; a [register_edge] with it then succeeds for that site. *)
Theorem token_stays_active (st : State) (t s : string) (cs : list Call) :
  enrollment_tokens st !! t = Some s →
  count (issues t) cs st = 0 →
  count (redeems t) cs st = 0 →
  enrollment_tokens (exec cs st) !! t = Some s
  ∧ ∀ e, (register_edge {| req_edge_id := e; req_token := t |} (exec cs st)).2
         = Return {[ "site_id" := s ]}.
Proof.
  intros Htok Hi Hr.
  pose proof (exec_token_kept t s cs st Htok Hi Hr) as Hkept.
  split; [done|]. intros e. unfold register_edge. simpl. by rewrite Hkept.
Qed.

Lemma token_stays_active_witness :
  (register_edge {| req_edge_id := "edge-7"; req_token := "t2" |}
     (exec [RegisterEdge edge9_t1; GenerateToken "site-A" "t3";
            SetDesiredConfig "site-B" config_v1; RegisterEdge edge9_t1]
           two_sites)).2
  = Return {[ "site_id" := "site-B" ]}.
Proof.
  destruct (token_stays_active two_sites "t2" "site-B"
              [RegisterEdge edge9_t1; GenerateToken "site-A" "t3";
               SetDesiredConfig "site-B" config_v1; RegisterEdge edge9_t1]
              eq_refl eq_refl eq_refl) as [_ H].
  exact (H "edge-7").
Defined.

(** X6 (no binding without an issued token).  In the state reached from
    the empty cloud by a sequence of calls, every active token was handed
    out by a [generate_token] call of the sequence for its site, and every
    bound edge was bound by a [register_edge] call of the sequence for that
    edge whose token was handed out for the bound site. *)
Theorem binding_provenance (cs : list Call) :
  (∀ t s, enrollment_tokens (exec cs init) !! t = Some s →
     GenerateToken s t ∈ cs)
  ∧ (∀ e r, edges (exec cs init) !! e = Some r →
       edge_id r = e
       ∧ ∃ t, RegisterEdge {| req_edge_id := e; req_token := t |} ∈ cs
              ∧ GenerateToken (site_id r) t ∈ cs).
Proof. exact (provenance_exec [] cs init provenance_init). Qed.

Lemma binding_provenance_witness :
  ∃ t, RegisterEdge {| req_edge_id := "edge-9"; req_token := t |}
         ∈ [SetDesiredConfig "site-A" config_v1; GenerateToken "site-A" "t1";
            RegisterEdge edge9_t1]
       ∧ GenerateToken "site-A" t
         ∈ [SetDesiredConfig "site-A" config_v1; GenerateToken "site-A" "t1";
            RegisterEdge edge9_t1].
Proof.
  destruct (binding_provenance
              [SetDesiredConfig "site-A" config_v1; GenerateToken "site-A" "t1";
               RegisterEdge edge9_t1]) as [_ He].
  destruct (He "edge-9" {| site_id := "site-A"; edge_id := "edge-9" |} eq_refl)
    as [_ H].
  exact H.
Defined.

(** X7 (unknown-site guard).  Starting from the empty cloud, as long as no
    [set_desired_config] was made for a site, [generate_token] for it
    raises "site not found" and changes nothing, and so does
    [get_desired_config]; no token for that site is active and no edge is
    bound to it. *)
Theorem unknown_site_guard (cs : list Call) (site : string) :
  last_write site cs = None →
  (∀ u, generate_token site u (exec cs init)
        = (exec cs init, Raise site_not_found))
  ∧ get_desired_config site (exec cs init) = Raise site_not_found
  ∧ (∀ t, enrollment_tokens (exec cs init) !! t ≠ Some site)
  ∧ (∀ e r, edges (exec cs init) !! e = Some r → site_id r ≠ site).
Proof.
  intros Hlw.
  assert (sites (exec cs init) !! site = None) as Hnone.
  { rewrite sites_after, Hlw. simpl. apply lookup_empty. }
  destruct (CloudSpec.sites_closed_exec cs init CloudSpec.sites_closed_init)
    as [He Ht].
  split; [|split; [|split]].
  - intros u. unfold generate_token. by rewrite Hnone.
  - unfold get_desired_config. by rewrite Hnone.
  - intros t Htok. destruct (Ht t site Htok) as [C HC]. congruence.
  - intros e r Hr <-. destruct (He e r Hr) as [C HC]. congruence.
Qed.

Lemma unknown_site_guard_witness :
  generate_token "site-Z" "t9" two_sites = (two_sites, Raise site_not_found).
Proof.
  destruct (unknown_site_guard
              [SetDesiredConfig "site-A" config_v1;
               SetDesiredConfig "site-B" config_v2;
               GenerateToken "site-A" "t1";
               GenerateToken "site-B" "t2"] "site-Z" eq_refl) as [H _].
  exact (H "t9").
Defined.

(** X8 (the edge list).  In every state reachable from the empty cloud,
    [list_edges] holds exactly the stored records, one per registered edge:
    a record is listed if and only if it is stored under its own
    [edge_id], no two listed records share an [edge_id], and the list is
    as long as the registry is large.  (Stated up to the order of the
    list.) *)
Theorem list_edges_exact (st : State) :
  reachable st →
  (∀ r, r ∈ list_edges st ↔ edges st !! edge_id r = Some r)
  ∧ NoDup (edge_id <$> list_edges st)
  ∧ length (list_edges st) = size (edges st).
Proof.
  intros [cs <-].
  destruct (provenance_exec [] cs init provenance_init) as [_ He].
  set (st := exec cs init) in *. unfold list_edges.
  assert (edge_id <$> (map_to_list (edges st)).*2 = (map_to_list (edges st)).*1)
    as Hkeys.
  { rewrite <- list_fmap_compose. apply Forall_fmap_ext_1.
    apply Forall_forall. intros [k r] Hin. simpl.
    apply elem_of_map_to_list in Hin. by destruct (He k r Hin). }
  split; [|split].
  - intros r. rewrite list_elem_of_fmap. split.
    + intros ([k r'] & -> & Hin). simpl.
      apply elem_of_map_to_list in Hin.
      destruct (He k r' Hin) as [-> _]. done.
    + intros Hr. exists (edge_id r, r). split; [done|].
      by apply elem_of_map_to_list.
  - rewrite Hkeys. apply NoDup_fst_map_to_list.
  - rewrite length_fmap. apply length_map_to_list.
Qed.

Lemma list_edges_exact_witness :
  length (list_edges
            (exec [RegisterEdge edge9_t1; RegisterEdge edge9_t2] two_sites))
  = 1.
Proof.
  destruct (list_edges_exact
              (exec [RegisterEdge edge9_t1; RegisterEdge edge9_t2] two_sites))
    as (_ & _ & Hlen).
  - exists [SetDesiredConfig "site-A" config_v1;
            SetDesiredConfig "site-B" config_v2;
            GenerateToken "site-A" "t1";
            GenerateToken "site-B" "t2";
            RegisterEdge edge9_t1; RegisterEdge edge9_t2].
    reflexivity.
  - rewrite Hlen. vm_compute. reflexivity.
Defined.

End CloudMore.

(** ** Further properties of the edge agent *)

Module EdgeMore.
Import Edge.

(** *** [rstrip] *)

Lemma rstrip_slashes k : rstrip_slash (slashes k) = EmptyString.
Proof. induction k as [|k IH]; simpl; [done|]. by rewrite IH. Qed.

Lemma rstrip_app_slashes s k :
  rstrip_slash (s +:+ slashes k) = rstrip_slash s.
Proof.
  induction s as [|c s IH]; simpl.
  - apply rstrip_slashes.
  - by rewrite IH.
Qed.

Lemma rstrip_decompose s : ∃ k, s = rstrip_slash s +:+ slashes k.
Proof.
  induction s as [|c s [k IH]]; simpl.
  - by exists 0.
  - destruct (rstrip_slash s) as [|c' r] eqn:E; simpl in *.
    + destruct (Ascii.eqb_spec c "/"%char) as [->|Hne].
      * exists (S k). cbv [String.append slashes] in *. congruence.
      * exists k. cbv [String.append] in *. congruence.
    + exists k. cbv [String.append] in *. congruence.
Qed.

Lemma rstrip_no_slash s : ends_with_slash (rstrip_slash s) = false.
Proof.
  induction s as [|c s IH]; simpl; [done|].
  destruct (rstrip_slash s) as [|c' r] eqn:E.
  - destruct (Ascii.eqb_spec c "/"%char) as [->|Hne]; simpl; [done|].
    by apply Ascii.eqb_neq.
  - exact IH.
Qed.

Lemma rstrip_fixed s : ends_with_slash s = false → rstrip_slash s = s.
Proof.
  induction s as [|c s IH]; simpl; [done|].
  destruct s as [|c' s'].
  - simpl. by intros ->.
  - intros H. rewrite (IH H). done.
Qed.

(** *** Runs of the two methods *)

(** What a run of [refresh_config] can be: the object changes in [config]
    at most, and the only possible action is one GET of the edge's
    configuration. *)
Lemma refresh_run s script :
  ∃ body c acts rest,
    run (refresh_config s) script = ((with_config s body, c), acts, rest)
    ∧ (acts = [] ∨ acts = [Fetched (config_url s) 10])
    ∧ (body = config s ∨ (registered s = true ∧ truthy (site_id s) = true)).
Proof.
  assert (with_config s (config s) = s) as Hid by (by destruct s).
  unfold refresh_config.
  destruct (registered s) eqn:Hreg; simpl.
  2:{ exists (config s), Normal, [], script. rewrite Hid. eauto. }
  destruct (truthy (site_id s)) eqn:Hsite; simpl.
  2:{ exists (config s), Normal, [], script. rewrite Hid. eauto. }
  destruct (next script) as [[resp|] rest]; simpl.
  - destruct (raise_for_status resp); simpl.
    { exists (config s), Normal, [Fetched (config_url s) 10], rest.
      rewrite Hid. eauto. }
    destruct (json_body resp) as [body|]; simpl.
    + exists body, Normal, [Fetched (config_url s) 10], rest.
      unfold with_config. rewrite Hreg. split; [done|]. split; [by right|].
      by right.
    + exists (config s), (Escaped JSONDecodeError),
        [Fetched (config_url s) 10], rest. rewrite Hid. eauto.
  - exists (config s), Normal, [Fetched (config_url s) 10], rest.
    rewrite Hid. eauto.
Qed.

Lemma register_success s resp data script :
  str_truthy (token s) = true →
  raise_for_status resp = false →
  json_body resp = Some (JObj data) →
  run (register_with_cloud s) (Responded resp :: script)
  = ((enrolled s (dict_get data "site_id"), Normal),
     [Posted (register_url s)
        (register_payload s (default EmptyString (token s))) 10],
     script).
Proof.
  intros Htok Hok Hbody. unfold register_with_cloud. rewrite Htok. simpl.
  by rewrite Hok, Hbody.
Qed.

Lemma tick_no_token s :
  registered s = false → str_truthy (token s) = false → tick s = sleep 15 s.
Proof.
  intros Hreg Htok. unfold tick, andthen. rewrite Hreg, Htok. simpl.
  unfold refresh_config. by rewrite Hreg.
Qed.

Lemma ticks_no_token n s script :
  registered s = false → str_truthy (token s) = false →
  run (ticks n s) script = ((s, Normal), replicate n (Slept 15), script).
Proof.
  intros Hreg Htok. induction n as [|n IH]; simpl; [done|].
  rewrite tick_no_token by done. unfold andthen. simpl. by rewrite IH.
Qed.

(** With [registered] set and no token, iterations keep everything but the
    cache and never post. *)
Lemma ticks_registered n s script :
  registered s = true → token s = None →
  ∃ body c acts rest,
    run (ticks n s) script = ((with_config s body, c), acts, rest)
    ∧ Forall (λ a, is_post a = false) acts.
Proof.
  revert s script. induction n as [|n IH]; intros s script Hreg Htok; simpl.
  { exists (config s), Normal, [], script. split; [by destruct s|constructor]. }
  unfold tick, andthen. rewrite Hreg. simpl. rewrite !EdgeSpec.run_bind.
  destruct (refresh_run s script) as (body & c & acts & rest & Hrun & Hacts & _).
  rewrite Hrun.
  assert (Forall (λ a, is_post a = false) acts) as Hnp.
  { destruct Hacts as [-> | ->]; repeat constructor. }
  destruct c as [|e]; simpl.
  - destruct (IH (with_config s body) rest Hreg Htok)
      as (body' & c' & acts' & rest' & Hrun' & Hnp').
    rewrite Hrun'. exists body', c', ((acts ++ [Slept 15]) ++ acts'), rest'.
    split; [done|]. apply Forall_app. split; [|done].
    apply Forall_app. split; [done|]. by repeat constructor.
  - exists body, (Escaped e), ((acts ++ []) ++ []), rest.
    split; [done|]. by rewrite !app_nil_r.
Qed.

Lemma agent_cache_inv s : agent_state s → cache_inv s.
Proof.
  induction 1 as [e u t|s script _ [IH1 IH2]|s script _ [IH1 IH2]].
  - split; by intros _.
  - unfold state_after, register_with_cloud.
    destruct (str_truthy (token s)) eqn:Htok; simpl; [|by split].
    destruct (next script) as [[resp|] rest]; simpl; [|by split].
    destruct (raise_for_status resp); simpl; [by split|].
    destruct (json_body resp) as [[| | | | | |data]|]; simpl; try (by split).
    destruct IH1 as (_ & _ & Hcfg).
    { destruct (token s); [eauto|done]. }
    split; simpl; [by intros [? [=]]|done].
  - unfold state_after.
    destruct (refresh_run s script) as (body & c & acts & rest & -> & _ & Hb).
    simpl. destruct Hb as [-> | [Hreg Hsite]].
    + by replace (with_config s (config s)) with s by (by destruct s).
    + split; simpl.
      * intros Htok. destruct (IH1 Htok) as [Hr _]. congruence.
      * rewrite Hreg, Hsite. done.
Qed.

(** *** The properties *)

(** X9 ([rstrip]).  [rstrip_slash] removes a run of slashes at the end and
    nothing else: the argument is the result followed by slashes only, the
    result does not end in a slash, a string that does not end in a slash
    is returned as it is, and stripping twice is stripping once. *)
Theorem rstrip_slash_spec (s : string) :
  (∃ k, s = rstrip_slash s +:+ slashes k)
  ∧ ends_with_slash (rstrip_slash s) = false
  ∧ (ends_with_slash s = false → rstrip_slash s = s)
  ∧ rstrip_slash (rstrip_slash s) = rstrip_slash s.
Proof.
  split; [apply rstrip_decompose|]. split; [apply rstrip_no_slash|].
  split; [apply rstrip_fixed|]. apply rstrip_fixed, rstrip_no_slash.
Qed.

Lemma rstrip_slash_spec_witness :
  rstrip_slash "http://cloud-api:8080" = "http://cloud-api:8080".
Proof.
  destruct (rstrip_slash_spec "http://cloud-api:8080") as (_ & _ & H & _).
  apply H. reflexivity.
Defined.

(** X10 (trailing slashes of the cloud URL).  An agent built with any
    number of slashes appended to the cloud URL is the same object, so it
    posts and fetches at the same URLs, and these are the stripped URL
    followed by the API path. *)
Theorem cloud_url_slashes_ignored (e u : string) (t : option string)
    (k : nat) :
  init e (u +:+ slashes k) t = init e u t
  ∧ register_url (init e (u +:+ slashes k) t)
    = rstrip_slash u +:+ "/api/edge/register"
  ∧ config_url (init e (u +:+ slashes k) t)
    = rstrip_slash u +:+ "/api/edges/" +:+ e +:+ "/desired-config"
  ∧ ends_with_slash (cloud_url (init e (u +:+ slashes k) t)) = false.
Proof.
  unfold init, register_url, config_url. simpl. rewrite rstrip_app_slashes.
  repeat split. apply rstrip_no_slash.
Qed.

(** X11 (no token, no traffic).  An unregistered agent whose token is
    [None] or the empty string never contacts the cloud: startup and any
    number of loop iterations only sleep and leave the object as it is.
    This is the case of the module-level agent when [EDGE_TOKEN] is unset
    or empty. *)
Theorem silent_without_token (n : nat) (script : list HttpResult) :
  (∀ s, registered s = false → str_truthy (token s) = false →
     run (run_background_tasks n s) script
     = ((s, Normal), replicate n (Slept 15), script))
  ∧ (∀ env, str_truthy (env !! "EDGE_TOKEN") = false →
       run (run_background_tasks n (module_state env)) script
       = ((module_state env, Normal), replicate n (Slept 15), script)).
Proof.
  assert (∀ s, registered s = false → str_truthy (token s) = false →
            run (run_background_tasks n s) script
            = ((s, Normal), replicate n (Slept 15), script)) as H.
  { intros s Hreg Htok. unfold run_background_tasks, andthen.
    rewrite Htok. simpl. by apply ticks_no_token. }
  split; [exact H|]. intros env Henv. by apply H.
Qed.

Lemma silent_without_token_witness :
  run (run_background_tasks 2 (module_state {[ "EDGE_ID" := "edge-5" ]}))
      [ok_site_A; ok_config]
  = ((module_state {[ "EDGE_ID" := "edge-5" ]}, Normal),
     [Slept 15; Slept 15], [ok_site_A; ok_config]).
Proof.
  destruct (silent_without_token 2 [ok_site_A; ok_config]) as [_ H].
  apply (H {[ "EDGE_ID" := "edge-5" ]}). vm_compute. reflexivity.
Defined.

(** X12 (enrolment and first fetch).  An agent with a token that gets a
    2xx answer to its registration carrying a truthy "site_id", and then a
    2xx answer to its configuration request, ends the first loop iteration
    registered to that site, without token, with the fetched body as its
    cache, after exactly one POST, one GET and one sleep. *)
Theorem enrolls_and_fetches (s : EdgeState) (resp resp2 : Response)
    (data : gmap string json) (body : json) (script : list HttpResult) :
  str_truthy (token s) = true →
  raise_for_status resp = false →
  json_body resp = Some (JObj data) →
  truthy (dict_get data "site_id") = true →
  raise_for_status resp2 = false →
  json_body resp2 = Some body →
  run (run_background_tasks 1 s) (Responded resp :: Responded resp2 :: script)
  = ((with_config (enrolled s (dict_get data "site_id")) body, Normal),
     [Posted (register_url s)
        (register_payload s (default EmptyString (token s))) 10;
      Fetched (config_url s) 10;
      Slept 15],
     script).
Proof.
  intros Htok Hok Hbody Hsite Hok2 Hbody2.
  unfold run_background_tasks, andthen. rewrite Htok.
  rewrite EdgeSpec.run_bind, (register_success s resp data) by done.
  simpl. unfold tick, andthen. simpl. rewrite !EdgeSpec.run_bind. simpl.
  unfold refresh_config. simpl. rewrite Hsite. simpl.
  by rewrite Hok2, Hbody2.
Qed.

Lemma enrolls_and_fetches_witness :
  state_after (run_background_tasks 1 edge1) [ok_site_A; ok_config]
  = with_config (enrolled edge1 (JStr "site-A")) (JObj {[ "v" := JInt 1 ]}).
Proof.
  assert (truthy (dict_get {[ "site_id" := JStr "site-A" ]} "site_id") = true)
    as Hsite by (vm_compute; reflexivity).
  pose proof (enrolls_and_fetches edge1
                {| status_code := 200;
                   json_body := Some (JObj {[ "site_id" := JStr "site-A" ]}) |}
                {| status_code := 200;
                   json_body := Some (JObj {[ "v" := JInt 1 ]}) |}
                {[ "site_id" := JStr "site-A" ]} (JObj {[ "v" := JInt 1 ]}) []
                eq_refl eq_refl eq_refl Hsite eq_refl eq_refl) as H.
  unfold state_after, ok_site_A, ok_config. rewrite H. vm_compute. reflexivity.
Defined.

(** X13 (a registered agent never posts again).  For an object the agent
    can hold with [registered] set, any number of loop iterations against
    any network leave [edge_id], [cloud_url], [site_id] and [registered] as
    they are and the token [None], and none of the requests made is a
    POST: the token is sent at most until the registration succeeds and the
    edge-side binding does not change afterwards. *)
Theorem registered_never_posts (s : EdgeState) (n : nat)
    (script : list HttpResult) :
  agent_state s →
  registered s = true →
  let s' := state_after (ticks n s) script in
  edge_id s' = edge_id s ∧ cloud_url s' = cloud_url s ∧ token s' = None
  ∧ site_id s' = site_id s ∧ registered s' = true
  ∧ Forall (λ a, is_post a = false) (actions_of (ticks n s) script).
Proof.
  intros Hagent Hreg.
  assert (token s = None) as Htok.
  { destruct (token s) as [t|] eqn:E; [|done].
    destruct (EdgeSpec.agent_token_inv s Hagent) as [Hr _]; [by rewrite E; eauto|].
    congruence. }
  destruct (ticks_registered n s script Hreg Htok)
    as (body & c & acts & rest & Hrun & Hnp).
  unfold state_after, actions_of. rewrite Hrun. simpl.
  by rewrite Htok, Hreg.
Qed.

Lemma registered_never_posts_witness :
  Forall (λ a, is_post a = false)
    (actions_of (ticks 2 (state_after (register_with_cloud edge1) [ok_site_A]))
       [ok_config; TransportError]).
Proof.
  destruct (registered_never_posts
              (state_after (register_with_cloud edge1) [ok_site_A]) 2
              [ok_config; TransportError]) as (_ & _ & _ & _ & _ & H).
  - apply agent_register. apply agent_init.
  - reflexivity.
  - exact H.
Defined.

(** X14 (a registration answer that is not a JSON object).  When the
    registration request gets a 2xx answer whose body does not decode,
    [resp.json()] raises, and when it decodes to something that is not an
    object, [data.get] raises; neither is an [httpx.HTTPError], so the
    exception leaves [run_background_tasks] at once: the object is
    unchanged (the token is kept), and after the one POST the agent does
    nothing more, however long the loop was meant to run. *)
Theorem bad_registration_body_stops_agent (s : EdgeState) (resp : Response)
    (n : nat) (script : list HttpResult) :
  str_truthy (token s) = true →
  raise_for_status resp = false →
  let request :=
    Posted (register_url s) (register_payload s (default EmptyString (token s))) 10 in
  (json_body resp = None →
     run (run_background_tasks n s) (Responded resp :: script)
     = ((s, Escaped JSONDecodeError), [request], script))
  ∧ (∀ v, json_body resp = Some v → (∀ d, v ≠ JObj d) →
       run (run_background_tasks n s) (Responded resp :: script)
       = ((s, Escaped AttributeError), [request], script)).
Proof.
  intros Htok Hok request. subst request.
  unfold run_background_tasks, andthen, register_with_cloud.
  rewrite Htok. simpl. rewrite Hok. split.
  - intros ->. done.
  - intros v -> Hv. destruct v as [| | | | | |d]; try done.
    by destruct (Hv d).
Qed.

Lemma bad_registration_body_stops_agent_witness :
  run (run_background_tasks 3 edge1)
    [Responded {| status_code := 200; json_body := Some (JArr []) |}; ok_site_A]
  = ((edge1, Escaped AttributeError),
     [Posted (register_url edge1) (register_payload edge1 "t1") 10],
     [ok_site_A]).
Proof.
  destruct (bad_registration_body_stops_agent edge1
              {| status_code := 200; json_body := Some (JArr []) |} 3 [ok_site_A]
              eq_refl eq_refl) as [_ H].
  apply (H (JArr []) eq_refl). intros d Hd. discriminate Hd.
Defined.

(** X15 (a configuration answer that does not decode).  For a registered
    agent with a site, a 2xx answer to the configuration request whose body
    does not decode makes [resp.json()] raise out of the loop: the object,
    cache included, is unchanged, the iteration does not reach its sleep,
    and no later iteration runs. *)
Theorem bad_config_body_stops_agent (s : EdgeState) (resp : Response)
    (n : nat) (script : list HttpResult) :
  registered s = true →
  truthy (site_id s) = true →
  raise_for_status resp = false →
  json_body resp = None →
  run (ticks (S n) s) (Responded resp :: script)
  = ((s, Escaped JSONDecodeError), [Fetched (config_url s) 10], script).
Proof.
  intros Hreg Hsite Hok Hbody. simpl.
  unfold tick, andthen, refresh_config. rewrite Hreg. simpl.
  rewrite Hreg, Hsite. simpl. by rewrite Hok, Hbody.
Qed.

Lemma bad_config_body_stops_agent_witness :
  run (ticks 3 (enrolled edge1 (JStr "site-A")))
    [Responded {| status_code := 200; json_body := None |}; ok_config]
  = ((enrolled edge1 (JStr "site-A"), Escaped JSONDecodeError),
     [Fetched (config_url edge1) 10], [ok_config]).
Proof.
  apply (bad_config_body_stops_agent (enrolled edge1 (JStr "site-A"))
           {| status_code := 200; json_body := None |} 2 [ok_config]);
    reflexivity.
Defined.

(** X16 (pace of the loop).  Whatever the object and the network, one loop
    iteration makes at most one POST and at most one GET, in that order of
    method calls, and sleeps at most once; when it ends normally its last
    action is the 15-second sleep, and when an exception leaves it, it has
    not slept. *)
Theorem tick_is_bounded (s : EdgeState) (script : list HttpResult) :
  let acts := actions_of (tick s) script in
  how_many is_post acts ≤ 1
  ∧ how_many is_fetch acts ≤ 1
  ∧ how_many is_sleep acts ≤ 1
  ∧ (completion_of (tick s) script = Normal → last acts = Some (Slept 15))
  ∧ (∀ e, completion_of (tick s) script = Escaped e →
       how_many is_sleep acts = 0).
Proof.
  unfold actions_of, completion_of, how_many, tick, andthen,
    register_with_cloud, refresh_config.
  destruct (registered s) eqn:Hreg, (str_truthy (token s)) eqn:Htok,
    (truthy (site_id s)) eqn:Hsite; simpl;
    repeat match goal with
    | |- context [registered s] => rewrite Hreg; simpl
    | |- context [truthy (site_id s)] => rewrite Hsite; simpl
    | |- context [next ?l] => destruct (next l) as [[?|] ?]; simpl
    | |- context [raise_for_status ?r] => destruct (raise_for_status r); simpl
    | |- context [json_body ?r] =>
        destruct (json_body r) as [[| | | | | |?]|]; simpl
    | |- context [truthy ?v] => destruct (truthy v); simpl
    end;
    repeat split; try lia; try done.
Qed.

Lemma tick_is_bounded_witness :
  last (actions_of (tick edge1) [ok_site_A; ok_config]) = Some (Slept 15).
Proof.
  destruct (tick_is_bounded edge1 [ok_site_A; ok_config]) as (_ & _ & _ & H & _).
  apply H. reflexivity.
Defined.

(** X17 (registration with a falsy site).  When the 2xx registration
    answer carries a "site_id" that Python counts as false (null, the empty
    string, 0, false, an empty list or object), the agent still becomes
    registered and drops its token, and from then on every loop iteration
    only sleeps: it never fetches a configuration and never registers
    again. *)
Theorem falsy_site_id_stuck (s : EdgeState) (resp : Response)
    (data : gmap string json) (script : list HttpResult) :
  str_truthy (token s) = true →
  raise_for_status resp = false →
  json_body resp = Some (JObj data) →
  truthy (dict_get data "site_id") = false →
  let s' := enrolled s (dict_get data "site_id") in
  state_after (register_with_cloud s) (Responded resp :: script) = s'
  ∧ ∀ n script',
      run (ticks n s') script' = ((s', Normal), replicate n (Slept 15), script').
Proof.
  intros Htok Hok Hbody Hsite s'. split.
  - unfold state_after. by rewrite (register_success s resp data).
  - intros n script'. by apply EdgeSpec.ticks_stuck.
Qed.

Lemma falsy_site_id_stuck_witness :
  run (ticks 2 (enrolled edge1 (JStr EmptyString))) [ok_config]
  = ((enrolled edge1 (JStr EmptyString), Normal), [Slept 15; Slept 15],
     [ok_config]).
Proof.
  assert (({[ "site_id" := JStr EmptyString ]} : gmap string json) !! "site_id"
          = Some (JStr EmptyString)) as Hkey by (vm_compute; reflexivity).
  assert (dict_get {[ "site_id" := JStr EmptyString ]} "site_id"
          = JStr EmptyString) as Hget by (unfold dict_get; by rewrite Hkey).
  destruct (falsy_site_id_stuck edge1
              {| status_code := 201;
                 json_body := Some (JObj {[ "site_id" := JStr EmptyString ]}) |}
              {[ "site_id" := JStr EmptyString ]} []
              eq_refl eq_refl eq_refl) as [_ H].
  - rewrite Hget. reflexivity.
  - rewrite Hget in H. exact (H 2 [ok_config]).
Defined.

(** X18 (nothing cached before enrolment).  For every object the agent
    can hold: while it holds a token it is unregistered, has no site and
    has no cached configuration; and as long as it is not registered with
    a truthy site its cached configuration is [None], which is what
    [/status] then reports under "config". *)
Theorem no_cache_before_enrolment (s : EdgeState) :
  agent_state s →
  (is_Some (token s) →
     registered s = false ∧ site_id s = JNull ∧ config s = JNull)
  ∧ (registered s && truthy (site_id s) = false →
       config s = JNull ∧ status s !! "config" = Some JNull).
Proof.
  intros Hagent. destruct (agent_cache_inv s Hagent) as [H1 H2].
  split; [done|]. intros H. specialize (H2 H). split; [done|].
  unfold status. rewrite H2.
  rewrite lookup_insert_ne by done. rewrite lookup_insert_ne by done.
  rewrite lookup_insert_ne by done. by rewrite lookup_singleton_eq.
Qed.

Lemma no_cache_before_enrolment_witness :
  config (state_after (refresh_config
            (state_after (register_with_cloud edge1) [bad_request]))
            [ok_config]) = JNull.
Proof.
  destruct (no_cache_before_enrolment
              (state_after (refresh_config
                 (state_after (register_with_cloud edge1) [bad_request]))
                 [ok_config])) as [_ H].
  - apply agent_refresh, agent_register, agent_init.
  - destruct H as [H _]; [reflexivity | exact H].
Defined.

End EdgeMore.
